(** * Shallow embedding of [stub_stdext_unix_read]
    (src/stdext/unixext_read_stubs.c).

    The stub is straight-line C code talking to three external parties:
    the allocator ([posix_memalign], [free]), the kernel ([read]) and the
    OCaml runtime ([uerror], blocking sections, the [bytes] value [buf]).
    We model them as a state / exception / trace monad: the state holds
    [errno], the descriptor table, the live heap blocks and the contents of
    the OCaml buffer; every external call emits an event, so that the calls
    a run performs can be inspected afterwards. *)

From Stdlib Require Import ZArith String List Bool Lia.
Import ListNotations.
Local Open Scope Z_scope.
Local Open Scope list_scope.

(** ** Machine integers and platform constants (LP64 Linux, glibc) *)

(** [(int) x] for a [long] [x]: two's complement truncation to 32 bits. *)
Definition int_of_long (x : Z) : Z :=
  let m := x mod 2 ^ 32 in
  if m <? 2 ^ 31 then m else m - 2 ^ 32.

(** Conversion of a signed value to [size_t] (64 bits, wrap-around). *)
Definition size_t_of (x : Z) : Z := x mod 2 ^ 64.

(** OCaml value conversions on a 64-bit host: an OCaml [int] is already a
    [long]; [Int_val] truncates to a C [int]. *)
Definition Long_val (v : Z) : Z := v.
Definition Int_val (v : Z) : Z := int_of_long v.
Definition Val_int (x : Z) : Z := x.

Definition EBADF : Z := 9.
Definition ENOMEM : Z := 12.
Definition EFAULT : Z := 14.
Definition EINVAL : Z := 22.

(** Linux caps a single transfer at [INT_MAX & PAGE_MASK]. *)
Definition MAX_RW_COUNT : Z := 2147479552.
(** Largest user-space range accepted by [access_ok] on x86-64. *)
Definition TASK_SIZE_MAX : Z := 2 ^ 47 - 4096.

(** [#define BLOCK_SIZE 512] *)
Definition BLOCK_SIZE : Z := 512.

Definition NULL : Z := 0.

(** ** Byte lists indexed by [Z] counts *)

Fixpoint take_z {A} (k : Z) (l : list A) : list A :=
  match l with
  | [] => []
  | x :: l' => if k <=? 0 then [] else x :: take_z (k - 1) l'
  end.

Fixpoint drop_z {A} (k : Z) (l : list A) : list A :=
  match l with
  | [] => []
  | x :: l' => if k <=? 0 then l else drop_z (k - 1) l'
  end.

(** ** The world the stub runs in *)

(** An open descriptor either has a stream of bytes available now (a
    regular file from its position on, or what a pipe or socket holds), or
    fails its reads with a given [errno] (e.g. [EIO], [EINTR], or [EBADF]
    for a descriptor not open for reading). *)
Inductive fd_state :=
| Readable (avail : list Byte.byte)
| Broken (err : Z).

(** A live heap block: address, size, and the bytes written so far from
    its start (the rest is indeterminate). *)
Record block := mkBlock { b_addr : Z; b_size : Z; b_data : list Byte.byte }.

Record state := mkState {
  s_errno : Z;
  s_fds : list (Z * fd_state);
  s_heap : list block;
  s_brk : Z;
  s_mem_avail : Z;
  s_blocking : bool;
  s_buf : list Byte.byte
}.

Definition with_errno (e : Z) (s : state) : state :=
  mkState e (s_fds s) (s_heap s) (s_brk s) (s_mem_avail s) (s_blocking s) (s_buf s).
Definition with_fds (f : list (Z * fd_state)) (s : state) : state :=
  mkState (s_errno s) f (s_heap s) (s_brk s) (s_mem_avail s) (s_blocking s) (s_buf s).
Definition with_heap (h : list block) (s : state) : state :=
  mkState (s_errno s) (s_fds s) h (s_brk s) (s_mem_avail s) (s_blocking s) (s_buf s).
Definition with_alloc (h : list block) (brk avail : Z) (s : state) : state :=
  mkState (s_errno s) (s_fds s) h brk avail (s_blocking s) (s_buf s).
Definition with_blocking (b : bool) (s : state) : state :=
  mkState (s_errno s) (s_fds s) (s_heap s) (s_brk s) (s_mem_avail s) b (s_buf s).
Definition with_buf (b : list Byte.byte) (s : state) : state :=
  mkState (s_errno s) (s_fds s) (s_heap s) (s_brk s) (s_mem_avail s) (s_blocking s) b.

Fixpoint fd_lookup (fd : Z) (t : list (Z * fd_state)) : option fd_state :=
  match t with
  | [] => None
  | (k, v) :: t' => if k =? fd then Some v else fd_lookup fd t'
  end.

Fixpoint fd_update (fd : Z) (v : fd_state) (t : list (Z * fd_state)) :=
  match t with
  | [] => []
  | (k, w) :: t' => if k =? fd then (k, v) :: t' else (k, w) :: fd_update fd v t'
  end.

Fixpoint blk_lookup (a : Z) (h : list block) : option block :=
  match h with
  | [] => None
  | b :: h' => if b_addr b =? a then Some b else blk_lookup a h'
  end.

Fixpoint blk_update (a : Z) (d : list Byte.byte) (h : list block) : list block :=
  match h with
  | [] => []
  | b :: h' =>
      if b_addr b =? a then mkBlock (b_addr b) (b_size b) d :: h'
      else b :: blk_update a d h'
  end.

Fixpoint blk_remove (a : Z) (h : list block) : list block :=
  match h with
  | [] => []
  | b :: h' => if b_addr b =? a then h' else b :: blk_remove a h'
  end.

(** Observable external calls. *)
Inductive event :=
| EvMemalign (align size ret addr : Z)
| EvEnterBlocking
| EvLeaveBlocking
| EvRead (fd addr count ret : Z)
| EvMemmove (dst_ofs src_addr n : Z)
| EvFree (addr : Z).

(** [Unix.Unix_error (code, cmd, arg)] as raised by [unix_error]. *)
Record unix_error := mkUnixError { ue_code : Z; ue_cmd : string; ue_arg : string }.

(** Outcome of a run: a value, an OCaml exception, or undefined behaviour
    of the C code. *)
Inductive res (A : Type) :=
| Ok (a : A)
| Exn (e : unix_error)
| UB.
Arguments Ok {A} a.
Arguments Exn {A} e.
Arguments UB {A}.

(** ** The state / exception / trace monad *)

Definition M (A : Type) := state -> res A * state * list event.

Definition mret {A} (a : A) : M A := fun s => (Ok a, s, []).

Definition mbind {A B} (m : M A) (k : A -> M B) : M B :=
  fun s =>
    match m s with
    | (Ok a, s1, t1) => let '(r, s2, t2) := k a s1 in (r, s2, t1 ++ t2)
    | (Exn e, s1, t1) => (Exn e, s1, t1)
    | (UB, s1, t1) => (UB, s1, t1)
    end.

Declare Scope stub_scope.
Delimit Scope stub_scope with stub.
Notation "x <- m ;; k" := (mbind m (fun x => k))
  (at level 61, m at next level, right associativity) : stub_scope.
Notation "m ;;; k" := (mbind m (fun _ => k))
  (at level 61, right associativity) : stub_scope.
Local Open Scope stub_scope.

Definition emit (e : event) : M unit := fun s => (Ok tt, s, [e]).
Definition undefined {A} : M A := fun s => (UB, s, []).

(** [uerror(cmdname, Nothing)]: raise [Unix_error (errno, cmdname, "")];
    does not return. *)
Definition uerror {A} (cmdname : string) : M A :=
  fun s => (Exn (mkUnixError (s_errno s) cmdname ""%string), s, []).

(** ** External calls *)

(** glibc accepts an alignment that is a power-of-two multiple of
    [sizeof(void * )]. *)
Definition valid_alignment (a : Z) : bool :=
  (0 <? a) && (a mod 8 =? 0) && (Z.land (a / 8) (a / 8 - 1) =? 0).

Definition round_up (x a : Z) : Z := ((x + a - 1) / a) * a.

(** [posix_memalign(memptr, alignment, size)]: returns [0] and a fresh block
    whose address is a multiple of [alignment], or an error number with
    [*memptr] unchanged. glibc rejects a bad alignment with [EINVAL] without
    touching [errno]; when memory runs out its allocator has set [errno] to
    [ENOMEM] before [ENOMEM] is returned. The heap is a bump allocator over
    [s_mem_avail] free bytes; addresses are never [NULL]. *)
Definition posix_memalign (memptr alignment size : Z) : M (Z * Z) :=
  fun s =>
    if negb (valid_alignment alignment) then
      (Ok (EINVAL, memptr), s, [EvMemalign alignment size EINVAL memptr])
    else if size <=? s_mem_avail s then
      let a := round_up (Z.max 1 (s_brk s)) alignment in
      (Ok (0, a),
       with_alloc (mkBlock a size [] :: s_heap s) (a + size) (s_mem_avail s - size) s,
       [EvMemalign alignment size 0 a])
    else
      (Ok (ENOMEM, memptr), with_errno ENOMEM s,
       [EvMemalign alignment size ENOMEM memptr]).

(** [free(p)]. *)
Definition free (p : Z) : M unit :=
  fun s =>
    if p =? NULL then (Ok tt, s, [])
    else match blk_lookup p (s_heap s) with
         | Some b =>
             (Ok tt,
              with_alloc (blk_remove p (s_heap s)) (s_brk s)
                         (s_mem_avail s + b_size b) s,
              [EvFree p])
         | None => (UB, s, [])
         end.

(** [read(fd, buf, count)] as Linux performs it: [EBADF] for a descriptor
    that is not open, [EFAULT] when [buf .. buf+count) is not a user range,
    then at most [min count MAX_RW_COUNT] bytes of what is available, written
    to the start of the block at [buf]; [-1] and [errno] on failure. Writing
    past the end of the block is undefined behaviour. *)
Definition sys_read (fd buf count : Z) : M Z :=
  fun s =>
    let fail e := (Ok (-1), with_errno e s, [EvRead fd buf count (-1)]) in
    match fd_lookup fd (s_fds s) with
    | None => fail EBADF
    | Some st =>
        if TASK_SIZE_MAX <? count then fail EFAULT
        else match st with
             | Broken e => fail e
             | Readable avail =>
                 let data := take_z (Z.min count MAX_RW_COUNT) avail in
                 let n := Z.of_nat (List.length data) in
                 match blk_lookup buf (s_heap s) with
                 | Some b =>
                     if n <=? b_size b then
                       (Ok n,
                        with_heap
                          (blk_update buf (app data (skipn (List.length data) (b_data b))) (s_heap s))
                          (with_fds (fd_update fd (Readable (drop_z n avail)) (s_fds s)) s),
                        [EvRead fd buf count n])
                     else (UB, s, [])
                 | None => (UB, s, [])
                 end
             end
    end.

Definition enter_blocking_section : M unit :=
  fun s => (Ok tt, with_blocking true s, [EvEnterBlocking]).

Definition leave_blocking_section : M unit :=
  fun s => (Ok tt, with_blocking false s, [EvLeaveBlocking]).

(** [memmove(&Byte(buf, ofs), src, n)]: copies the first [n] bytes of the
    block at [src] into the OCaml buffer at offset [ofs]. Reading
    indeterminate bytes or writing outside [buf] is undefined behaviour. *)
Definition memmove_to_buf (ofs src n : Z) : M unit :=
  fun s =>
    match blk_lookup src (s_heap s) with
    | Some b =>
        let buf := s_buf s in
        if (n <=? Z.of_nat (List.length (b_data b))) && (0 <=? ofs)
           && (ofs + n <=? Z.of_nat (length buf)) then
          (Ok tt,
           with_buf (firstn (Z.to_nat ofs) buf ++ firstn (Z.to_nat n) (b_data b)
                     ++ skipn (Z.to_nat (ofs + n)) buf) s,
           [EvMemmove ofs src n])
        else (UB, s, [])
    | None => (UB, s, [])
    end.

(** ** The stub *)

(** [stub_stdext_unix_read(fd, buf, ofs, len)]; [buf] is the [s_buf] part of
    the state ([Begin_root]/[End_roots] only register it with the GC). *)
Definition stub_stdext_unix_read (fd ofs len : Z) : M Z :=
  let iobuf := NULL in
  let numbytes := Long_val len in
  r <- posix_memalign iobuf BLOCK_SIZE (size_t_of numbytes) ;;
  let '(ret, iobuf) := r in
  (if negb (ret =? 0) then uerror "read/posix_memalign" else mret tt) ;;;
  enter_blocking_section ;;;
  r <- sys_read (Int_val fd) iobuf (size_t_of (int_of_long numbytes)) ;;
  let ret := int_of_long r in
  leave_blocking_section ;;;
  (if ret =? -1 then uerror "read" else mret tt) ;;;
  memmove_to_buf (Long_val ofs) iobuf (size_t_of ret) ;;;
  free iobuf ;;;
  mret (Val_int ret).

(** Observations on the events of a run. *)
Definition read_counts (t : list event) : list Z :=
  flat_map (fun e => match e with EvRead _ _ c _ => [c] | _ => [] end) t.
Definition read_rets (t : list event) : list Z :=
  flat_map (fun e => match e with EvRead _ _ _ r => [r] | _ => [] end) t.
Definition memmove_counts (t : list event) : list Z :=
  flat_map (fun e => match e with EvMemmove _ _ n => [n] | _ => [] end) t.

(** Sample worlds. *)
Definition bytes_ABCDEF : list Byte.byte := [Byte.x41; Byte.x42; Byte.x43; Byte.x44; Byte.x45; Byte.x46].

Definition world (fds : list (Z * fd_state)) (mem : Z) (buf : list Byte.byte) : state :=
  mkState 0 fds [] 4096 mem false buf.

Definition buf8 : list Byte.byte := repeat Byte.x2a 8.

(** Descriptor 3 over [A;B;C;D;E;F]; descriptor 3 at end of stream;
    no descriptor open; and an allocator with a single free byte. *)
Definition s_abc : state := world [(3, Readable bytes_ABCDEF)] 100000 buf8.
Definition s_eof : state := world [(3, Readable [])] 100000 buf8.
Definition s_closed : state := world [] 100000 buf8.
Definition s_nomem : state := world [(3, Readable bytes_ABCDEF)] 1 buf8.

(** ** Helper lemmas *)

Lemma take_drop_z {A} (k : Z) (l : list A) : take_z k l ++ drop_z k l = l.
Proof.
  revert k; induction l as [|x l IH]; intros k; simpl; [reflexivity|].
  destruct (k <=? 0); simpl; [reflexivity|]. now rewrite IH.
Qed.

Lemma drop_z_app {A} (d r : list A) : drop_z (Z.of_nat (List.length d)) (d ++ r) = r.
Proof.
  enough (forall k, k = Z.of_nat (List.length d) -> drop_z k (d ++ r) = r) by auto.
  induction d as [|x d IH]; intros k Hk; simpl in *.
  - subst k. destruct r; reflexivity.
  - destruct (k <=? 0) eqn:E; [apply Z.leb_le in E; lia|].
    apply IH. lia.
Qed.

Lemma take_z_length_le {A} (k : Z) (l : list A) :
  0 <= k -> Z.of_nat (List.length (take_z k l)) <= k.
Proof.
  revert k; induction l as [|x l IH]; intros k Hk; simpl; [lia|].
  destruct (k <=? 0) eqn:E; simpl; [lia|].
  specialize (IH (k - 1)). lia.
Qed.

Lemma int_of_long_small (x : Z) : 0 <= x < 2 ^ 31 -> int_of_long x = x.
Proof.
  intros H. unfold int_of_long. rewrite Z.mod_small by lia.
  destruct (x <? 2 ^ 31) eqn:E; lia.
Qed.

Lemma int_of_long_minus_one : int_of_long (-1) = -1.
Proof. reflexivity. Qed.

(** The count handed to [read] is either beyond the user address range (and
    refused with [EFAULT]) or, after the kernel's cap, at most [len]. *)
Lemma read_count_bound (len : Z) :
  0 <= len ->
  size_t_of (int_of_long len) <= TASK_SIZE_MAX ->
  Z.min (size_t_of (int_of_long len)) MAX_RW_COUNT <= len.
Proof.
  intros H0 H1. unfold size_t_of, int_of_long in *.
  pose proof (Z.mod_pos_bound len (2 ^ 32) ltac:(lia)) as Hm.
  pose proof (Z.mod_le len (2 ^ 32) H0 ltac:(lia)) as Hle.
  destruct (len mod 2 ^ 32 <? 2 ^ 31) eqn:E.
  - rewrite (Z.mod_small (len mod 2 ^ 32)) by lia. lia.
  - unfold MAX_RW_COUNT. lia.
Qed.

(** Whatever [len] is, a count that passes [access_ok] transfers no more
    than the [size_t_of len] bytes of the staging block. *)
Lemma read_fits_block (len : Z) :
  size_t_of (int_of_long len) <= TASK_SIZE_MAX ->
  Z.min (size_t_of (int_of_long len)) MAX_RW_COUNT <= size_t_of len.
Proof.
  intros H1. unfold size_t_of, int_of_long in *.
  pose proof (Z.mod_pos_bound len (2 ^ 32) ltac:(lia)) as Hm.
  pose proof (Z.mod_pos_bound len (2 ^ 64) ltac:(lia)) as Hm64.
  assert (Hd : len mod 2 ^ 32 = (len mod 2 ^ 64) mod 2 ^ 32).
  { symmetry. apply Z.mod_mod_divide. exists (2 ^ 32). reflexivity. }
  destruct (len mod 2 ^ 32 <? 2 ^ 31) eqn:E.
  - rewrite (Z.mod_small (len mod 2 ^ 32)) by lia.
    pose proof (Z.mod_le (len mod 2 ^ 64) (2 ^ 32) ltac:(lia) ltac:(lia)). lia.
  - rewrite <- (Z.mod_unique (len mod 2 ^ 32 - 2 ^ 32) (2 ^ 64) (-1)
               (len mod 2 ^ 32 - 2 ^ 32 + 2 ^ 64)) in H1 by lia.
    unfold TASK_SIZE_MAX in H1. lia.
Qed.

Lemma round_up_aligned (x a : Z) : 0 < a -> round_up x a mod a = 0.
Proof. intros Ha. unfold round_up. apply Z_mod_mult. Qed.

Lemma round_up_pos (x a : Z) : 0 < x -> 0 < a -> 0 < round_up x a.
Proof.
  intros Hx Ha. unfold round_up.
  assert (1 <= (x + a - 1) / a).
  { apply Z.div_le_lower_bound; lia. }
  nia.
Qed.

Lemma valid_alignment_BLOCK_SIZE : valid_alignment BLOCK_SIZE = true.
Proof. reflexivity. Qed.

Lemma fd_lookup_update (fd : Z) (v w : fd_state) (t : list (Z * fd_state)) :
  fd_lookup fd t = Some w -> fd_lookup fd (fd_update fd v t) = Some v.
Proof.
  induction t as [|[k x] t IH]; simpl; [discriminate|].
  destruct (k =? fd) eqn:E; simpl; rewrite E; auto.
Qed.

Lemma firstn_app_nil_length {A} (d : list A) :
  firstn (Z.to_nat (Z.of_nat (List.length d))) (d ++ skipn (List.length d) []) = d.
Proof.
  rewrite Nat2Z.id, skipn_nil, app_nil_r. apply firstn_all.
Qed.

Lemma window_of_write {A} (b d : list A) (ofs : nat) :
  (ofs <= List.length b)%nat ->
  firstn (List.length d) (skipn ofs (firstn ofs b ++ d ++ skipn (ofs + List.length d) b)) = d.
Proof.
  intros H. rewrite skipn_app, firstn_length_le by exact H.
  rewrite Nat.sub_diag, skipn_all2 by (rewrite firstn_length_le; lia).
  simpl. rewrite firstn_app, Nat.sub_diag, firstn_all. simpl. apply app_nil_r.
Qed.

Lemma blk_lookup_head (a sz : Z) (d : list Byte.byte) (h : list block) :
  blk_lookup a (mkBlock a sz d :: h) = Some (mkBlock a sz d).
Proof. simpl. now rewrite Z.eqb_refl. Qed.

Lemma blk_update_head (a sz : Z) (d d' : list Byte.byte) (h : list block) :
  blk_update a d' (mkBlock a sz d :: h) = mkBlock a sz d' :: h.
Proof. simpl. now rewrite Z.eqb_refl. Qed.

Lemma blk_remove_head (a sz : Z) (d : list Byte.byte) (h : list block) :
  blk_remove a (mkBlock a sz d :: h) = h.
Proof. simpl. now rewrite Z.eqb_refl. Qed.

Lemma size_t_of_range (x : Z) : 0 <= size_t_of x < 2 ^ 64.
Proof. unfold size_t_of. apply Z.mod_pos_bound. lia. Qed.

Lemma size_t_of_small (x : Z) : 0 <= x < 2 ^ 64 -> size_t_of x = x.
Proof. intros H. unfold size_t_of. now apply Z.mod_small. Qed.

(** What one successful [read] transfers is at most [MAX_RW_COUNT] bytes, so
    it fits a C [int] and a [size_t] unchanged. *)
Lemma read_transfer_small {A} (c : Z) (l : list A) :
  0 <= c ->
  let n := Z.of_nat (List.length (take_z (Z.min c MAX_RW_COUNT) l)) in
  0 <= n <= MAX_RW_COUNT /\ n <= Z.min c MAX_RW_COUNT /\ int_of_long n = n /\ size_t_of (int_of_long n) = n.
Proof.
  intros Hc n.
  assert (Hn : n <= Z.min c MAX_RW_COUNT)
    by (apply take_z_length_le; unfold MAX_RW_COUNT; lia).
  assert (0 <= n) by lia.
  assert (int_of_long n = n) as Hi by (apply int_of_long_small; unfold MAX_RW_COUNT in *; lia).
  rewrite Hi, size_t_of_small by (unfold MAX_RW_COUNT in *; lia).
  repeat split; lia.
Qed.

(** Reduces a hypothesis about a run without unfolding arithmetic. *)
Ltac simpl_run H :=
  cbn -[Z.min Z.add Z.sub Z.leb Z.ltb Z.eqb Z.pow Z.modulo int_of_long size_t_of round_up
        TASK_SIZE_MAX MAX_RW_COUNT BLOCK_SIZE NULL take_z drop_z fd_update blk_lookup
        blk_update blk_remove firstn skipn] in H;
  rewrite ?blk_lookup_head, ?blk_update_head, ?blk_remove_head,
    ?int_of_long_minus_one, ?Z.eqb_refl in H;
  repeat match goal with Hl : List.length ?x = List.length ?y |- _ => rewrite Hl in H end;
  cbn beta iota in H.

(** Unfolds a run of the stub given as hypothesis [H] into its paths. *)
Ltac run_stub H :=
  unfold stub_stdext_unix_read, mbind, posix_memalign, sys_read,
    enter_blocking_section, leave_blocking_section, memmove_to_buf, free,
    uerror, mret, Long_val, Val_int, Int_val in H;
  rewrite ?valid_alignment_BLOCK_SIZE in H; cbn [negb] in H;
  repeat (simpl_run H;
    match type of H with
    | context [if ?c then _ else _] =>
        first
          [ match goal with E' : c = _ |- _ => rewrite E' in H end
          | let E := fresh "E" in destruct c eqn:E; try (cbn in E; discriminate E) ]
    | context [match ?x with _ => _ end] =>
        lazymatch x with
        | context [if _ then _ else _] => fail
        | context [match _ with _ => _ end] => fail
        | _ =>
            first
              [ match goal with E' : x = _ |- _ => rewrite E' in H end
              | let E := fresh "E" in destruct x eqn:E ]
        end
    end);
  simpl_run H;
  try discriminate H;
  try (injection H as <- <- <-).

(** Splits a hypothesis [In e evs] over a concrete event list. *)
Ltac in_ev Hin :=
  cbn [In app] in Hin;
  repeat (destruct Hin as [Hin|Hin]; [try discriminate Hin; try (injection Hin; intros; subst)|]);
  try contradiction.

Lemma fd_lookup_update_other (fd fd2 : Z) (v : fd_state) (t : list (Z * fd_state)) :
  fd2 <> fd -> fd_lookup fd2 (fd_update fd v t) = fd_lookup fd2 t.
Proof.
  intros Hne. induction t as [|[k x] t IH]; simpl; [reflexivity|].
  destruct (k =? fd) eqn:E; simpl.
  - apply Z.eqb_eq in E. subst k.
    destruct (fd =? fd2) eqn:E2; [apply Z.eqb_eq in E2; congruence|reflexivity].
  - destruct (k =? fd2); [reflexivity|exact IH].
Qed.

Lemma Int_val_periodic (fd : Z) : Int_val (fd + 2 ^ 32) = Int_val fd.
Proof.
  unfold Int_val, int_of_long.
  replace (fd + 2 ^ 32) with (fd + 1 * 2 ^ 32) by lia.
  now rewrite Z.mod_add by lia.
Qed.

(** Closes the path where [read] would write past the staging block: the
    count [read] is given never lets it ([read_fits_block]). *)
Ltac no_block_overflow :=
  match goal with
  | E5 : (Z.of_nat (List.length (take_z (Z.min (size_t_of (int_of_long ?l)) MAX_RW_COUNT) ?av))
            <=? size_t_of ?l) = false,
    E1 : (TASK_SIZE_MAX <? size_t_of (int_of_long ?l)) = false |- _ =>
      exfalso; apply Z.leb_gt in E5; apply Z.ltb_ge in E1;
      pose proof (read_fits_block l E1);
      destruct (read_transfer_small (size_t_of (int_of_long l)) av
                  (proj1 (size_t_of_range _))) as (_ & ? & _); lia
  end.

(** Closes the path where the staging block would be [NULL]. *)
Ltac no_null_block :=
  match goal with
  | E2 : (round_up (Z.max 1 ?b) BLOCK_SIZE =? NULL) = true |- _ =>
      exfalso; apply Z.eqb_eq in E2;
      pose proof (round_up_pos (Z.max 1 b) BLOCK_SIZE ltac:(lia) ltac:(unfold BLOCK_SIZE; lia));
      unfold NULL in E2; lia
  end.

Ltac no_minus_one :=
  match goal with
  | E6 : (int_of_long (Z.of_nat (List.length (take_z (Z.min ?c MAX_RW_COUNT) ?av))) =? -1) = true |- _ =>
      exfalso; apply Z.eqb_eq in E6;
      destruct (read_transfer_small c av (proj1 (size_t_of_range _))) as (? & _ & ? & _); lia
  end.

(** Shape of a successful run: what the descriptor delivered, where it went
    in the destination, and that the copy was in bounds. *)
Lemma stub_success_shape
    (fd ofs len : Z) (s s' : state) (n : Z) (evs : list event) :
  stub_stdext_unix_read fd ofs len s = (Ok n, s', evs) ->
  exists data rest,
    fd_lookup (Int_val fd) (s_fds s) = Some (Readable (data ++ rest)) /\
    fd_lookup (Int_val fd) (s_fds s') = Some (Readable rest) /\
    Z.of_nat (List.length data) = n /\
    0 <= ofs /\ ofs + n <= Z.of_nat (List.length (s_buf s)) /\
    s_buf s' = firstn (Z.to_nat ofs) (s_buf s) ++ data
               ++ skipn (Z.to_nat (ofs + n)) (s_buf s).
Proof.
  intros H. run_stub H.
  all: set (k := Z.min (size_t_of (int_of_long len)) MAX_RW_COUNT) in *.
  all: destruct (read_transfer_small (size_t_of (int_of_long len)) avail
                   (proj1 (size_t_of_range _))) as (_ & _ & Hi & Hsz).
  all: fold k in Hi, Hsz.
  all: exists (take_z k avail), (drop_z k avail); unfold Int_val.
  all: rewrite ?Hsz, ?Hi in E7; repeat rewrite andb_true_iff in E7; rewrite !Z.leb_le in E7.
  all: rewrite take_drop_z; cbn; rewrite ?Hsz, ?Hi.
  all: split; [assumption|].
  all: split; [|split; [reflexivity|split; [lia|split; [lia|now rewrite firstn_app_nil_length]]]].
  all: rewrite (fd_lookup_update _ _ (Readable avail)) by assumption.
  all: rewrite <- (take_drop_z k avail) at 2; now rewrite drop_z_app.
Qed.

Lemma window_of_write_z {A} (b d : list A) (ofs : Z) :
  0 <= ofs -> ofs + Z.of_nat (List.length d) <= Z.of_nat (List.length b) ->
  firstn (Z.to_nat (Z.of_nat (List.length d)))
    (skipn (Z.to_nat ofs)
       (firstn (Z.to_nat ofs) b ++ d ++ skipn (Z.to_nat (ofs + Z.of_nat (List.length d))) b))
  = d.
Proof.
  intros H0 H1. rewrite Z2Nat.inj_add, !Nat2Z.id by lia.
  apply window_of_write. apply Nat2Z.inj_le. rewrite Z2Nat.id; lia.
Qed.

(** When the low 32 bits of [len] have the sign bit set, [(int) len] is
    negative and the [size_t] count is beyond any user range. *)
Lemma count_beyond_user_range (len : Z) :
  2 ^ 31 <= len mod 2 ^ 32 -> TASK_SIZE_MAX < size_t_of (int_of_long len).
Proof.
  intros H. unfold size_t_of, int_of_long.
  pose proof (Z.mod_pos_bound len (2 ^ 32) ltac:(lia)).
  destruct (len mod 2 ^ 32 <? 2 ^ 31) eqn:E; [apply Z.ltb_lt in E; lia|].
  rewrite <- (Z.mod_unique (len mod 2 ^ 32 - 2 ^ 32) (2 ^ 64) (-1)
               (len mod 2 ^ 32 - 2 ^ 32 + 2 ^ 64)) by lia.
  unfold TASK_SIZE_MAX. lia.
Qed.

(** ** Claims *)

(** C3: if the aligned allocation of the staging region fails, the call
    raises [Unix_error] with the allocator's error code and the name
    ["read/posix_memalign"]; no staging buffer was obtained, so nothing is
    released (the heap is as before, no [free]); no read is issued and the
    destination is untouched. *)
Theorem alloc_failure_reports_allocator_error
    (fd ofs len : Z) (s s' : state) (r : res Z) (evs : list event)
    (al sz ret p : Z) :
  stub_stdext_unix_read fd ofs len s = (r, s', evs) ->
  In (EvMemalign al sz ret p) evs -> ret <> 0 ->
  r = Exn (mkUnixError ret "read/posix_memalign" "") /\
  s_heap s' = s_heap s /\ s_buf s' = s_buf s /\
  (forall q, ~ In (EvFree q) evs) /\ read_counts evs = [].
Proof.
  intros H Hin Hret. run_stub H; in_ev Hin; try congruence.
  repeat split; auto. intros q Hq. in_ev Hq.
Qed.

(** C1 (as the code stands): when the [read] system call reports an error,
    the call raises [Unix_error (_, "read", _)] while the staging block is
    still allocated: [uerror] does not return, so the [free(iobuf)] after
    it is never reached and the block stays live in the heap. *)
Theorem read_error_leaves_staging_allocated
    (fd ofs len : Z) (s s' : state) (r : res Z) (evs : list event)
    (fd' a c : Z) :
  stub_stdext_unix_read fd ofs len s = (r, s', evs) ->
  In (EvRead fd' a c (-1)) evs ->
  (exists e, r = Exn (mkUnixError e "read" "")) /\
  blk_lookup a (s_heap s') <> None /\ ~ In (EvFree a) evs.
Proof.
  intros H Hin. run_stub H; in_ev Hin.
  all: try (pose proof (read_transfer_small (size_t_of (int_of_long len)) avail
                          (proj1 (size_t_of_range _))) as Hs; cbn zeta in Hs; lia).
  all: cbn; split; [eexists; reflexivity|].
  all: rewrite Z.eqb_refl; split; [discriminate|].
  all: intros Hf; in_ev Hf.
Qed.

(** C4: after a successful call returning [n], the destination holds, at
    [ofs .. ofs+n), exactly the [n] bytes the descriptor delivered, in
    order (its stream was [data ++ rest] and is now [rest]); every other
    byte of the destination is as before, in particular the tail after a
    partial read is not zeroed. *)
Theorem success_copies_read_bytes
    (fd ofs len : Z) (s s' : state) (n : Z) (evs : list event) :
  stub_stdext_unix_read fd ofs len s = (Ok n, s', evs) ->
  exists data rest,
    fd_lookup (Int_val fd) (s_fds s) = Some (Readable (data ++ rest)) /\
    fd_lookup (Int_val fd) (s_fds s') = Some (Readable rest) /\
    Z.of_nat (List.length data) = n /\
    s_buf s' = firstn (Z.to_nat ofs) (s_buf s) ++ data
               ++ skipn (Z.to_nat (ofs + n)) (s_buf s).
Proof.
  intros H. run_stub H.
  all: set (k := Z.min (size_t_of (int_of_long len)) MAX_RW_COUNT) in *.
  all: destruct (read_transfer_small (size_t_of (int_of_long len)) avail
                   (proj1 (size_t_of_range _))) as (_ & _ & Hi & Hsz).
  all: fold k in Hi, Hsz.
  all: exists (take_z k avail), (drop_z k avail); unfold Int_val.
  all: rewrite take_drop_z; cbn; rewrite ?Hsz, ?Hi.
  all: split; [assumption|].
  all: split; [|split; [reflexivity|now rewrite firstn_app_nil_length]].
  all: rewrite (fd_lookup_update _ _ (Readable avail)) by assumption.
  all: rewrite <- (take_drop_z k avail) at 2; now rewrite drop_z_app.
Qed.

(** C5: for [len >= 0] a successful call returns [n] with [0 <= n <= len];
    the one [read] returned [n] and the one copy moved [n] bytes, so what is
    copied exceeds neither [len] nor what [read] returned. *)
Theorem success_count_bounded
    (fd ofs len : Z) (s s' : state) (n : Z) (evs : list event) :
  0 <= len ->
  stub_stdext_unix_read fd ofs len s = (Ok n, s', evs) ->
  0 <= n <= len /\ read_rets evs = [n] /\ memmove_counts evs = [n].
Proof.
  intros Hlen H. run_stub H.
  all: destruct (read_transfer_small (size_t_of (int_of_long len)) avail
                   (proj1 (size_t_of_range _))) as (Hb & Hm & Hi & Hsz).
  all: pose proof (read_count_bound len Hlen) as Hc; apply Z.ltb_ge in E1.
  all: cbn; rewrite ?Hsz, ?Hi; repeat split; lia.
Qed.

(** C7: whenever the underlying [read] yields zero bytes (a zero [len] on a
    readable descriptor, or end of stream), the call raises nothing,
    returns [0] and leaves the destination as it was. *)
Theorem zero_byte_read_returns_zero
    (fd ofs len : Z) (s s' : state) (r : res Z) (evs : list event)
    (fd' a c : Z) :
  stub_stdext_unix_read fd ofs len s = (r, s', evs) ->
  In (EvRead fd' a c 0) evs ->
  0 <= ofs <= Z.of_nat (List.length (s_buf s)) ->
  r = Ok 0 /\ s_buf s' = s_buf s.
Proof.
  intros H Hin Hofs. run_stub H; in_ev Hin.
  all: match goal with Hz : Z.of_nat _ = 0 |- _ => rewrite Hz in * end.
  all: change (int_of_long 0) with 0 in *; change (size_t_of 0) with 0 in *.
  all: try (cbn in E6; discriminate E6).
  all: try (repeat rewrite andb_false_iff in E7; rewrite ?Z.leb_gt in E7; lia).
  all: cbn; split; [reflexivity|].
  all: rewrite Z.add_0_r; apply firstn_skipn.
Qed.

(** C9: the alignment is the fixed constant [BLOCK_SIZE = 512]; every
    [read] the call issues goes to a staging block obtained just before from
    [posix_memalign(_, BLOCK_SIZE, len)] with a start address that is a
    multiple of 512, and that block is not freed before the [read]. *)
Theorem staging_buffer_aligned_during_read
    (fd ofs len : Z) (s s' : state) (r : res Z) (evs : list event) :
  0 <= len < 2 ^ 62 ->
  stub_stdext_unix_read fd ofs len s = (r, s', evs) ->
  BLOCK_SIZE = 512 /\
  forall fd' a c k, In (EvRead fd' a c k) evs ->
    exists pre post,
      evs = pre ++ EvRead fd' a c k :: post /\
      In (EvMemalign BLOCK_SIZE len 0 a) pre /\
      a mod BLOCK_SIZE = 0 /\ ~ In (EvFree a) pre.
Proof.
  intros Hlen H. split; [reflexivity|].
  intros fd' a c k Hin.
  rewrite <- (size_t_of_small len) by lia.
  run_stub H; in_ev Hin.
  all: eexists [_; _], _; split; [reflexivity|].
  all: split; [left; reflexivity|].
  all: split; [apply round_up_aligned; unfold BLOCK_SIZE; lia|].
  all: intros Hf; in_ev Hf.
Qed.

(** C10: the destination is output only. Two runs from the same world that
    differ only in the contents of a destination of the same size raise or
    return the same thing, perform the same external calls, and write the
    same bytes at [ofs .. ofs+n). *)
Theorem dest_is_output_only
    (fd ofs len : Z) (s : state) (b1 b2 : list Byte.byte)
    (r1 r2 : res Z) (s1 s2 : state) (e1 e2 : list event) :
  List.length b1 = List.length b2 ->
  stub_stdext_unix_read fd ofs len (with_buf b1 s) = (r1, s1, e1) ->
  stub_stdext_unix_read fd ofs len (with_buf b2 s) = (r2, s2, e2) ->
  r1 = r2 /\ e1 = e2 /\
  forall n, r1 = Ok n ->
    firstn (Z.to_nat n) (skipn (Z.to_nat ofs) (s_buf s1))
    = firstn (Z.to_nat n) (skipn (Z.to_nat ofs) (s_buf s2)).
Proof.
  intros Hl H1 H2. run_stub H1; run_stub H2.
  all: split; [reflexivity|split; [reflexivity|]].
  all: intros n Hn; try discriminate Hn.
  all: destruct (read_transfer_small (size_t_of (int_of_long len)) avail
                   (proj1 (size_t_of_range _))) as (Hb & _ & Hi & Hsz).
  all: set (d := take_z (Z.min (size_t_of (int_of_long len)) MAX_RW_COUNT) avail) in *.
  all: rewrite Hsz, Hi in *; injection Hn as <-.
  all: cbn [s_buf with_buf with_blocking with_heap with_fds with_alloc].
  all: rewrite firstn_app_nil_length.
  all: repeat rewrite andb_true_iff in E7; rewrite !Z.leb_le in E7.
  all: rewrite Z2Nat.inj_add, !Nat2Z.id by lia.
  all: assert (Z.to_nat ofs <= Datatypes.length b1)%nat
         by (apply Nat2Z.inj_le; rewrite Z2Nat.id; lia).
  all: rewrite !window_of_write by lia; reflexivity.
Qed.

(** C6 (amended): a call on a descriptor that is not open raises
    [Unix_error] rather than returning a sentinel, and leaves the
    destination unmodified. The allocation comes first: when it succeeds
    the error is [EBADF] from ["read"]; when it fails the allocator's
    [ENOMEM] from ["read/posix_memalign"] is raised instead. *)
Theorem invalid_fd_raises_dest_unchanged
    (fd ofs len : Z) (s s' : state) (r : res Z) (evs : list event) :
  fd_lookup (Int_val fd) (s_fds s) = None ->
  stub_stdext_unix_read fd ofs len s = (r, s', evs) ->
  s_buf s' = s_buf s /\
  ((exists a, In (EvMemalign BLOCK_SIZE (size_t_of len) 0 a) evs /\
              r = Exn (mkUnixError EBADF "read" "")) \/
   (In (EvMemalign BLOCK_SIZE (size_t_of len) ENOMEM NULL) evs /\
    r = Exn (mkUnixError ENOMEM "read/posix_memalign" ""))).
Proof.
  intros Hfd H. unfold Int_val in Hfd. run_stub H.
  all: split; [reflexivity|].
  all: first [ left; eexists; split; [left; reflexivity|reflexivity]
             | right; split; [left; reflexivity|reflexivity] ].
Qed.

(** C8 (amended): a call issues at most one [read] and never retries:
    exactly one when [posix_memalign] succeeded, none when it failed.
    Partial reads are surfaced as they come: on a stream
    [A;B;C;D;E;F], two calls with [len = 4] return 4 (copying [A;B;C;D])
    and then 2 (copying [E;F]). *)
Theorem at_most_one_read_per_call
    (fd ofs len : Z) (s s' : state) (r : res Z) (evs : list event) :
  stub_stdext_unix_read fd ofs len s = (r, s', evs) ->
  ((exists a, In (EvMemalign BLOCK_SIZE (size_t_of len) 0 a) evs /\
              List.length (read_counts evs) = 1%nat) \/
   (In (EvMemalign BLOCK_SIZE (size_t_of len) ENOMEM NULL) evs /\
    read_counts evs = [])) /\
  (let s0 := world [(3, Readable bytes_ABCDEF)] 100000 buf8 in
   let '(r1, s1, _) := stub_stdext_unix_read 3 0 4 s0 in
   let '(r2, s2, _) := stub_stdext_unix_read 3 0 4 s1 in
   r1 = Ok 4 /\ firstn 4 (s_buf s1) = firstn 4 bytes_ABCDEF /\
   r2 = Ok 2 /\ firstn 2 (s_buf s2) = skipn 4 bytes_ABCDEF).
Proof.
  intros H. split; [|vm_compute; repeat split].
  run_stub H.
  all: try (exfalso; apply Z.leb_gt in E5; apply Z.ltb_ge in E1;
            pose proof (read_fits_block len E1);
            destruct (read_transfer_small (size_t_of (int_of_long len)) avail
                        (proj1 (size_t_of_range _))) as (_ & Hm & _); lia).
  all: try (right; split; [left; reflexivity|reflexivity]).
  all: left; eexists; split; [left; reflexivity|].
  all: cbn; rewrite ?app_nil_r; reflexivity.
Qed.

(** C2 (as the code stands): the count handed to [read] is
    [(int) numbytes], truncated to 32 bits. For [len = 2^32] (a buffer of
    4 GiB) the kernel is asked for 0 bytes, and the call returns 0 even
    though data is available. *)
Theorem read_count_truncated_at_2pow32 (b : list Byte.byte) :
  let s0 := mkState 0 [(3, Readable bytes_ABCDEF)] [] 4096 (2 ^ 40) false b in
  let '(r, _, evs) := stub_stdext_unix_read 3 0 (2 ^ 32) s0 in
  read_counts evs = [0] /\ r = Ok 0.
Proof.
  cbn zeta. unfold stub_stdext_unix_read, mbind, posix_memalign, sys_read,
    enter_blocking_section, leave_blocking_section, memmove_to_buf, free,
    uerror, mret, Long_val, Val_int, Int_val.
  destruct b; vm_compute; auto.
Qed.

(** ** Witnesses and counterexamples *)

Lemma read_error_leaves_staging_allocated_witness :
  (exists e, fst (fst (stub_stdext_unix_read 3 0 4 s_closed)) = Exn (mkUnixError e "read" "")) /\
  blk_lookup 4096 (s_heap (snd (fst (stub_stdext_unix_read 3 0 4 s_closed)))) <> None /\
  ~ In (EvFree 4096) (snd (stub_stdext_unix_read 3 0 4 s_closed)).
Proof.
  apply (read_error_leaves_staging_allocated 3 0 4 s_closed _ _ _ 3 4096 4).
  - vm_compute. reflexivity.
  - vm_compute. auto.
Defined.

Lemma alloc_failure_reports_allocator_error_witness :
  fst (fst (stub_stdext_unix_read 3 0 4 s_nomem))
  = Exn (mkUnixError ENOMEM "read/posix_memalign" "").
Proof.
  refine (proj1 (alloc_failure_reports_allocator_error 3 0 4 s_nomem
                   (snd (fst (stub_stdext_unix_read 3 0 4 s_nomem)))
                   (fst (fst (stub_stdext_unix_read 3 0 4 s_nomem)))
                   (snd (stub_stdext_unix_read 3 0 4 s_nomem))
                   BLOCK_SIZE 4 ENOMEM NULL _ _ _)).
  - vm_compute. reflexivity.
  - vm_compute. auto.
  - discriminate.
Defined.

Lemma success_copies_read_bytes_witness :
  exists data rest,
    fd_lookup (Int_val 3) (s_fds s_abc) = Some (Readable (data ++ rest)) /\
    fd_lookup (Int_val 3) (s_fds (snd (fst (stub_stdext_unix_read 3 2 4 s_abc))))
      = Some (Readable rest) /\
    Z.of_nat (List.length data) = 4 /\
    s_buf (snd (fst (stub_stdext_unix_read 3 2 4 s_abc)))
      = firstn 2 (s_buf s_abc) ++ data ++ skipn 6 (s_buf s_abc).
Proof.
  apply (success_copies_read_bytes 3 2 4 s_abc _ 4
           (snd (stub_stdext_unix_read 3 2 4 s_abc))).
  vm_compute. reflexivity.
Defined.

Lemma success_count_bounded_witness :
  0 <= 6 <= 20 /\ read_rets (snd (stub_stdext_unix_read 3 0 20 (world [(3, Readable bytes_ABCDEF)] 100000 (repeat Byte.x00 25)))) = [6].
Proof.
  destruct (success_count_bounded 3 0 20
              (world [(3, Readable bytes_ABCDEF)] 100000 (repeat Byte.x00 25))
              (snd (fst (stub_stdext_unix_read 3 0 20
                           (world [(3, Readable bytes_ABCDEF)] 100000 (repeat Byte.x00 25)))))
              6
              (snd (stub_stdext_unix_read 3 0 20
                      (world [(3, Readable bytes_ABCDEF)] 100000 (repeat Byte.x00 25)))))
    as (Hb & Hr & _).
  - lia.
  - vm_compute. reflexivity.
  - exact (conj Hb Hr).
Defined.

Lemma zero_byte_read_returns_zero_witness :
  fst (fst (stub_stdext_unix_read 3 1 4 s_eof)) = Ok 0 /\
  s_buf (snd (fst (stub_stdext_unix_read 3 1 4 s_eof))) = s_buf s_eof.
Proof.
  apply (zero_byte_read_returns_zero 3 1 4 s_eof _ _
           (snd (stub_stdext_unix_read 3 1 4 s_eof)) 3 4096 4).
  - vm_compute. reflexivity.
  - vm_compute. auto.
  - vm_compute. split; discriminate.
Defined.

Lemma staging_buffer_aligned_during_read_witness :
  exists pre post,
    snd (stub_stdext_unix_read 3 0 4 s_abc) = pre ++ EvRead 3 4096 4 4 :: post /\
    In (EvMemalign BLOCK_SIZE 4 0 4096) pre /\
    4096 mod BLOCK_SIZE = 0 /\ ~ In (EvFree 4096) pre.
Proof.
  eapply (staging_buffer_aligned_during_read 3 0 4 s_abc
            (snd (fst (stub_stdext_unix_read 3 0 4 s_abc)))
            (fst (fst (stub_stdext_unix_read 3 0 4 s_abc))) _).
  - lia.
  - vm_compute. reflexivity.
  - vm_compute. auto.
Defined.

Lemma dest_is_output_only_witness :
  fst (fst (stub_stdext_unix_read 3 0 4 (with_buf buf8 s_abc)))
  = fst (fst (stub_stdext_unix_read 3 0 4 (with_buf (repeat Byte.x00 8) s_abc))).
Proof.
  apply (dest_is_output_only 3 0 4 s_abc buf8 (repeat Byte.x00 8) _ _
           (snd (fst (stub_stdext_unix_read 3 0 4 (with_buf buf8 s_abc))))
           (snd (fst (stub_stdext_unix_read 3 0 4 (with_buf (repeat Byte.x00 8) s_abc))))
           (snd (stub_stdext_unix_read 3 0 4 (with_buf buf8 s_abc)))
           (snd (stub_stdext_unix_read 3 0 4 (with_buf (repeat Byte.x00 8) s_abc)))).
  - reflexivity.
  - vm_compute. reflexivity.
  - vm_compute. reflexivity.
Defined.

Lemma invalid_fd_raises_dest_unchanged_witness :
  s_buf (snd (fst (stub_stdext_unix_read 3 0 4 s_closed))) = s_buf s_closed.
Proof.
  apply (invalid_fd_raises_dest_unchanged 3 0 4 s_closed _
           (fst (fst (stub_stdext_unix_read 3 0 4 s_closed)))
           (snd (stub_stdext_unix_read 3 0 4 s_closed))).
  - reflexivity.
  - vm_compute. reflexivity.
Defined.

Lemma at_most_one_read_per_call_witness :
  In (EvMemalign BLOCK_SIZE (size_t_of 4) ENOMEM NULL) (snd (stub_stdext_unix_read 3 0 4 s_nomem))
  \/ (exists a, In (EvMemalign BLOCK_SIZE (size_t_of 4) 0 a) (snd (stub_stdext_unix_read 3 0 4 s_nomem))).
Proof.
  destruct (at_most_one_read_per_call 3 0 4 s_nomem
              (snd (fst (stub_stdext_unix_read 3 0 4 s_nomem)))
              (fst (fst (stub_stdext_unix_read 3 0 4 s_nomem)))
              (snd (stub_stdext_unix_read 3 0 4 s_nomem))) as [[[a [Ha _]]|[Hn _]] _].
  - vm_compute. reflexivity.
  - right. exists a. exact Ha.
  - left. exact Hn.
Defined.

(** C6 as stated fails: descriptor 7 is not open, but with the allocator
    out of memory the call raises the ["read/posix_memalign"] error, not the
    ["read"] one. *)
Lemma invalid_fd_alloc_first_cex :
  fd_lookup (Int_val 7) (s_fds s_nomem) = None /\
  fst (fst (stub_stdext_unix_read 7 0 4 s_nomem))
    = Exn (mkUnixError ENOMEM "read/posix_memalign" "") /\
  forall e, fst (fst (stub_stdext_unix_read 7 0 4 s_nomem))
            <> Exn (mkUnixError e "read" "").
Proof.
  vm_compute. split; [reflexivity|split; [reflexivity|]].
  intros e H. injection H as _ Hc. discriminate Hc.
Qed.

(** C8 as stated fails: when the allocation fails no [read] is issued. *)
Lemma no_read_when_alloc_fails_cex :
  read_counts (snd (stub_stdext_unix_read 3 0 4 s_nomem)) = [] /\
  List.length (read_counts (snd (stub_stdext_unix_read 3 0 4 s_nomem))) <> 1%nat.
Proof. vm_compute. split; [reflexivity|discriminate]. Qed.

(** ** Further properties of the stub *)

(** X1: the [read] system call is always issued inside the blocking
    section, entered just before and left just after it; a run that entered
    the section has left it when it returns or raises, and a run that never
    entered it leaves the section flag as it was. *)
Theorem blocking_section_brackets_read
    (fd ofs len : Z) (s s' : state) (r : res Z) (evs : list event) :
  stub_stdext_unix_read fd ofs len s = (r, s', evs) ->
  (forall fd' a c k, In (EvRead fd' a c k) evs ->
     exists pre post,
       evs = pre ++ EvEnterBlocking :: EvRead fd' a c k :: EvLeaveBlocking :: post) /\
  (In EvEnterBlocking evs -> In EvLeaveBlocking evs /\ s_blocking s' = false) /\
  (~ In EvEnterBlocking evs -> s_blocking s' = s_blocking s).
Proof.
  intros H. run_stub H; try no_block_overflow.
  all: split; [intros fd' a c k Hin; in_ev Hin; eexists [_], _; reflexivity|].
  all: split; [intros He; cbn in He |- *;
               first [split; [tauto|reflexivity] | exfalso; intuition discriminate]|].
  all: intros Hn; cbn in Hn; try tauto; reflexivity.
Qed.

(** X2: a successful call releases the staging block it allocated: the
    heap and the allocator's free memory are as they were before the call. *)
Theorem success_releases_staging
    (fd ofs len : Z) (s s' : state) (n : Z) (evs : list event) :
  stub_stdext_unix_read fd ofs len s = (Ok n, s', evs) ->
  s_heap s' = s_heap s /\ s_mem_avail s' = s_mem_avail s /\
  exists a, In (EvMemalign BLOCK_SIZE (size_t_of len) 0 a) evs /\ In (EvFree a) evs.
Proof.
  intros H. run_stub H; try no_null_block.
  cbn. split; [reflexivity|split; [lia|]].
  eexists. split; [left; reflexivity|cbn; tauto].
Qed.

(** X3: a call only ever changes the descriptor it reads from; and when it
    raises, neither the descriptor table nor the destination has changed
    (a failed call consumes no data). *)
Theorem other_descriptors_untouched
    (fd ofs len : Z) (s s' : state) (r : res Z) (evs : list event) :
  stub_stdext_unix_read fd ofs len s = (r, s', evs) ->
  (forall fd2, fd2 <> Int_val fd -> fd_lookup fd2 (s_fds s') = fd_lookup fd2 (s_fds s)) /\
  (forall e, r = Exn e -> s_fds s' = s_fds s /\ s_buf s' = s_buf s).
Proof.
  intros H. run_stub H; try no_minus_one.
  all: split; [intros fd2 Hne; cbn; unfold Int_val in Hne;
               rewrite ?fd_lookup_update_other by exact Hne; reflexivity|].
  all: intros e He; try discriminate He; split; reflexivity.
Qed.

(** X4: the descriptor goes through [Int_val], a truncation to a C [int]:
    descriptor arguments that differ by [2^32] give the same run. *)
Theorem fd_aliases_mod_2pow32 (fd ofs len : Z) (s : state) :
  stub_stdext_unix_read (fd + 2 ^ 32) ofs len s = stub_stdext_unix_read fd ofs len s.
Proof. unfold stub_stdext_unix_read. now rewrite Int_val_periodic. Qed.

(** X5: the stub does not check the sign of [len]: a negative OCaml [int]
    becomes a [size_t] above [2^64 - 2^62], so (with less than [2^63] bytes
    free) the call raises the allocation error, issues no [read] and leaves
    the destination alone. *)
Theorem negative_length_alloc_error
    (fd ofs len : Z) (s s' : state) (r : res Z) (evs : list event) :
  - 2 ^ 62 <= len < 0 -> s_mem_avail s < 2 ^ 63 ->
  stub_stdext_unix_read fd ofs len s = (r, s', evs) ->
  r = Exn (mkUnixError ENOMEM "read/posix_memalign" "") /\
  evs = [EvMemalign BLOCK_SIZE (len + 2 ^ 64) ENOMEM NULL] /\ s_buf s' = s_buf s.
Proof.
  intros Hl Hm H.
  assert (Hs : size_t_of len = len + 2 ^ 64).
  { unfold size_t_of. symmetry. apply (Z.mod_unique _ _ (-1)); lia. }
  run_stub H; try (exfalso; apply Z.leb_le in E; lia).
  rewrite Hs. repeat split; reflexivity.
Qed.

(** X6: when bit 31 of [len] is set, the [(int)] cast makes the count
    negative and the [size_t] the kernel sees exceeds the user address
    range: even with the block allocated and data pending on an open
    descriptor, the call raises [EFAULT] from [read] and consumes nothing. *)
Theorem sign_bit_length_faults
    (fd ofs len : Z) (s s' : state) (r : res Z) (evs : list event) :
  2 ^ 31 <= len mod 2 ^ 32 -> size_t_of len <= s_mem_avail s ->
  fd_lookup (Int_val fd) (s_fds s) <> None ->
  stub_stdext_unix_read fd ofs len s = (r, s', evs) ->
  r = Exn (mkUnixError EFAULT "read" "") /\
  read_counts evs = [size_t_of (int_of_long len)] /\ s_fds s' = s_fds s.
Proof.
  intros Hb Hm Hfd H. pose proof (count_beyond_user_range len Hb) as Hc.
  unfold Int_val in Hfd.
  run_stub H; try (exfalso; apply Z.leb_gt in E; lia);
    try (exfalso; apply Z.ltb_ge in E1; lia); try congruence.
  repeat split; reflexivity.
Qed.

(** X7: the stub never checks [ofs] against the OCaml buffer: whenever the
    read delivered at least one byte and the destination range
    [ofs, ofs + k) does not lie inside the buffer, the [memmove] writes out
    of bounds and the run is undefined. *)
Theorem no_bounds_check_on_dest
    (fd ofs len : Z) (s s' : state) (r : res Z) (evs : list event)
    (fd' a c k : Z) :
  stub_stdext_unix_read fd ofs len s = (r, s', evs) ->
  In (EvRead fd' a c k) evs -> 0 < k ->
  ofs < 0 \/ Z.of_nat (List.length (s_buf s)) < ofs + k ->
  r = UB.
Proof.
  intros H Hin Hk Hout. run_stub H; try reflexivity; try no_minus_one.
  all: in_ev Hin; try lia.
  all: destruct (read_transfer_small (size_t_of (int_of_long len)) avail
                   (proj1 (size_t_of_range _))) as (_ & _ & Hi & Hsz).
  all: rewrite ?Hsz, ?Hi in E7; repeat rewrite andb_true_iff in E7; rewrite !Z.leb_le in E7.
  all: lia.
Qed.

(** X8: two successful calls on the same descriptor deliver consecutive
    pieces of its stream: the bytes the first call placed at [ofs1] are
    followed in the stream by those the second placed at [ofs2]. *)
Theorem consecutive_reads_concatenate
    (fd ofs1 len1 ofs2 len2 : Z) (s s1 s2 : state) (n1 n2 : Z)
    (evs1 evs2 : list event) :
  stub_stdext_unix_read fd ofs1 len1 s = (Ok n1, s1, evs1) ->
  stub_stdext_unix_read fd ofs2 len2 s1 = (Ok n2, s2, evs2) ->
  exists d1 d2 rest,
    fd_lookup (Int_val fd) (s_fds s) = Some (Readable (d1 ++ d2 ++ rest)) /\
    fd_lookup (Int_val fd) (s_fds s2) = Some (Readable rest) /\
    firstn (Z.to_nat n1) (skipn (Z.to_nat ofs1) (s_buf s1)) = d1 /\
    firstn (Z.to_nat n2) (skipn (Z.to_nat ofs2) (s_buf s2)) = d2.
Proof.
  intros H1 H2.
  destruct (stub_success_shape _ _ _ _ _ _ _ H1)
    as (d1 & r1 & Hs & Hs1 & Hn1 & Ho1 & Hb1 & Hbuf1).
  destruct (stub_success_shape _ _ _ _ _ _ _ H2)
    as (d2 & r2 & Hs1' & Hs2 & Hn2 & Ho2 & Hb2 & Hbuf2).
  rewrite Hs1 in Hs1'. injection Hs1' as ->.
  exists d1, d2, r2. split; [exact Hs|split; [exact Hs2|split]].
  - rewrite Hbuf1, <- Hn1. apply window_of_write_z; lia.
  - rewrite Hbuf2, <- Hn2. apply window_of_write_z; lia.
Qed.

(** X9: a failing [read] is reported once, with the kernel's [errno] and the
    command name "read"; the stub does not retry (not even on [EINTR]) and
    the destination is unchanged. *)
Theorem read_errno_reported_once
    (fd ofs len e : Z) (s s' : state) (r : res Z) (evs : list event) :
  fd_lookup (Int_val fd) (s_fds s) = Some (Broken e) ->
  size_t_of len <= s_mem_avail s -> size_t_of (int_of_long len) <= TASK_SIZE_MAX ->
  stub_stdext_unix_read fd ofs len s = (r, s', evs) ->
  r = Exn (mkUnixError e "read" "") /\ s_errno s' = e /\
  read_rets evs = [-1] /\ s_buf s' = s_buf s.
Proof.
  intros Hfd Hm Hc H. unfold Int_val in Hfd.
  run_stub H; try (exfalso; apply Z.leb_gt in E; lia);
    try (exfalso; apply Z.ltb_lt in E1; lia); try congruence.
  all: repeat split; reflexivity.
Qed.

Lemma blocking_section_brackets_read_witness :
  (forall fd' a c k,
     In (EvRead fd' a c k) (snd (stub_stdext_unix_read 3 2 4 s_abc)) ->
     exists pre post, snd (stub_stdext_unix_read 3 2 4 s_abc)
       = pre ++ EvEnterBlocking :: EvRead fd' a c k :: EvLeaveBlocking :: post) /\
  (In EvEnterBlocking (snd (stub_stdext_unix_read 3 2 4 s_abc)) ->
     In EvLeaveBlocking (snd (stub_stdext_unix_read 3 2 4 s_abc)) /\
     s_blocking (snd (fst (stub_stdext_unix_read 3 2 4 s_abc))) = false) /\
  (~ In EvEnterBlocking (snd (stub_stdext_unix_read 3 2 4 s_abc)) ->
     s_blocking (snd (fst (stub_stdext_unix_read 3 2 4 s_abc))) = s_blocking s_abc).
Proof.
  apply (blocking_section_brackets_read 3 2 4 s_abc
           (snd (fst (stub_stdext_unix_read 3 2 4 s_abc)))
           (fst (fst (stub_stdext_unix_read 3 2 4 s_abc)))
           (snd (stub_stdext_unix_read 3 2 4 s_abc))).
  vm_compute. reflexivity.
Defined.

Lemma success_releases_staging_witness :
  s_heap (snd (fst (stub_stdext_unix_read 3 2 4 s_abc))) = s_heap s_abc /\
  s_mem_avail (snd (fst (stub_stdext_unix_read 3 2 4 s_abc))) = s_mem_avail s_abc /\
  exists a, In (EvMemalign BLOCK_SIZE (size_t_of 4) 0 a) (snd (stub_stdext_unix_read 3 2 4 s_abc))
         /\ In (EvFree a) (snd (stub_stdext_unix_read 3 2 4 s_abc)).
Proof.
  apply (success_releases_staging 3 2 4 s_abc
           (snd (fst (stub_stdext_unix_read 3 2 4 s_abc))) 4
           (snd (stub_stdext_unix_read 3 2 4 s_abc))).
  vm_compute. reflexivity.
Defined.

Lemma other_descriptors_untouched_witness :
  (forall fd2, fd2 <> Int_val 3 ->
     fd_lookup fd2 (s_fds (snd (fst (stub_stdext_unix_read 3 2 4 s_abc))))
     = fd_lookup fd2 (s_fds s_abc)) /\
  (forall e, fst (fst (stub_stdext_unix_read 3 2 4 s_abc)) = Exn e ->
     s_fds (snd (fst (stub_stdext_unix_read 3 2 4 s_abc))) = s_fds s_abc /\
     s_buf (snd (fst (stub_stdext_unix_read 3 2 4 s_abc))) = s_buf s_abc).
Proof.
  apply (other_descriptors_untouched 3 2 4 s_abc
           (snd (fst (stub_stdext_unix_read 3 2 4 s_abc)))
           (fst (fst (stub_stdext_unix_read 3 2 4 s_abc)))
           (snd (stub_stdext_unix_read 3 2 4 s_abc))).
  vm_compute. reflexivity.
Defined.

Lemma negative_length_alloc_error_witness :
  fst (fst (stub_stdext_unix_read 3 0 (-1) s_abc))
    = Exn (mkUnixError ENOMEM "read/posix_memalign" "") /\
  snd (stub_stdext_unix_read 3 0 (-1) s_abc)
    = [EvMemalign BLOCK_SIZE (-1 + 2 ^ 64) ENOMEM NULL] /\
  s_buf (snd (fst (stub_stdext_unix_read 3 0 (-1) s_abc))) = s_buf s_abc.
Proof.
  apply (negative_length_alloc_error 3 0 (-1) s_abc
           (snd (fst (stub_stdext_unix_read 3 0 (-1) s_abc)))
           (fst (fst (stub_stdext_unix_read 3 0 (-1) s_abc)))
           (snd (stub_stdext_unix_read 3 0 (-1) s_abc))).
  - lia.
  - vm_compute. reflexivity.
  - vm_compute. reflexivity.
Defined.

Lemma sign_bit_length_faults_witness :
  fst (fst (stub_stdext_unix_read 3 0 (2 ^ 31) (world [(3, Readable bytes_ABCDEF)] (2 ^ 40) buf8)))
    = Exn (mkUnixError EFAULT "read" "") /\
  read_counts (snd (stub_stdext_unix_read 3 0 (2 ^ 31)
                      (world [(3, Readable bytes_ABCDEF)] (2 ^ 40) buf8)))
    = [size_t_of (int_of_long (2 ^ 31))] /\
  s_fds (snd (fst (stub_stdext_unix_read 3 0 (2 ^ 31)
                     (world [(3, Readable bytes_ABCDEF)] (2 ^ 40) buf8))))
    = s_fds (world [(3, Readable bytes_ABCDEF)] (2 ^ 40) buf8).
Proof.
  apply (sign_bit_length_faults 3 0 (2 ^ 31) (world [(3, Readable bytes_ABCDEF)] (2 ^ 40) buf8)
           (snd (fst (stub_stdext_unix_read 3 0 (2 ^ 31)
                        (world [(3, Readable bytes_ABCDEF)] (2 ^ 40) buf8))))
           (fst (fst (stub_stdext_unix_read 3 0 (2 ^ 31)
                        (world [(3, Readable bytes_ABCDEF)] (2 ^ 40) buf8))))
           (snd (stub_stdext_unix_read 3 0 (2 ^ 31)
                   (world [(3, Readable bytes_ABCDEF)] (2 ^ 40) buf8)))).
  - vm_compute. discriminate.
  - vm_compute. discriminate.
  - vm_compute. discriminate.
  - vm_compute. reflexivity.
Defined.

Lemma no_bounds_check_on_dest_witness :
  fst (fst (stub_stdext_unix_read 3 6 4 s_abc)) = UB.
Proof.
  apply (no_bounds_check_on_dest 3 6 4 s_abc
           (snd (fst (stub_stdext_unix_read 3 6 4 s_abc)))
           (fst (fst (stub_stdext_unix_read 3 6 4 s_abc)))
           (snd (stub_stdext_unix_read 3 6 4 s_abc)) 3 4096 4 4).
  - vm_compute. reflexivity.
  - vm_compute. auto 10.
  - lia.
  - right. vm_compute. reflexivity.
Defined.

Lemma consecutive_reads_concatenate_witness :
  exists d1 d2 rest,
    fd_lookup (Int_val 3) (s_fds s_abc) = Some (Readable (d1 ++ d2 ++ rest)) /\
    fd_lookup (Int_val 3)
      (s_fds (snd (fst (stub_stdext_unix_read 3 4 2
                          (snd (fst (stub_stdext_unix_read 3 0 2 s_abc)))))))
      = Some (Readable rest) /\
    firstn (Z.to_nat 2) (skipn (Z.to_nat 0) (s_buf (snd (fst (stub_stdext_unix_read 3 0 2 s_abc)))))
      = d1 /\
    firstn (Z.to_nat 2)
      (skipn (Z.to_nat 4)
         (s_buf (snd (fst (stub_stdext_unix_read 3 4 2
                             (snd (fst (stub_stdext_unix_read 3 0 2 s_abc))))))))
      = d2.
Proof.
  apply (consecutive_reads_concatenate 3 0 2 4 2 s_abc
           (snd (fst (stub_stdext_unix_read 3 0 2 s_abc)))
           (snd (fst (stub_stdext_unix_read 3 4 2
                        (snd (fst (stub_stdext_unix_read 3 0 2 s_abc))))))
           2 2
           (snd (stub_stdext_unix_read 3 0 2 s_abc))
           (snd (stub_stdext_unix_read 3 4 2
                   (snd (fst (stub_stdext_unix_read 3 0 2 s_abc)))))).
  - vm_compute. reflexivity.
  - vm_compute. reflexivity.
Defined.

Lemma read_errno_reported_once_witness :
  fst (fst (stub_stdext_unix_read 3 0 4 (world [(3, Broken 4)] 100000 buf8)))
    = Exn (mkUnixError 4 "read" "") /\
  s_errno (snd (fst (stub_stdext_unix_read 3 0 4 (world [(3, Broken 4)] 100000 buf8)))) = 4 /\
  read_rets (snd (stub_stdext_unix_read 3 0 4 (world [(3, Broken 4)] 100000 buf8))) = [-1] /\
  s_buf (snd (fst (stub_stdext_unix_read 3 0 4 (world [(3, Broken 4)] 100000 buf8))))
    = s_buf (world [(3, Broken 4)] 100000 buf8).
Proof.
  apply (read_errno_reported_once 3 0 4 4 (world [(3, Broken 4)] 100000 buf8)
           (snd (fst (stub_stdext_unix_read 3 0 4 (world [(3, Broken 4)] 100000 buf8))))
           (fst (fst (stub_stdext_unix_read 3 0 4 (world [(3, Broken 4)] 100000 buf8))))
           (snd (stub_stdext_unix_read 3 0 4 (world [(3, Broken 4)] 100000 buf8)))).
  - vm_compute. reflexivity.
  - vm_compute. discriminate.
  - vm_compute. discriminate.
  - vm_compute. reflexivity.
Defined.
